(** * The Python probe application of the injector integration tests

    A shallow embedding of
    [injector-integration-tests/runtimes/python/app.py]: the two echo
    operations, the command dispatch of [main], and the way the interpreter
    turns the outcome of the module into an exit status.

    A Python [str] is modelled as a [string], the bytes of its UTF-8 form
    (a lone surrogate encoded as it stands): ASCII text is represented by
    itself, and concatenation, equality and emptiness are those of the
    bytes.  The process environment [os.environ] is a finite map from names
    to values; the attribute
    [builtins.otel_injector_python_no_op_agent_has_been_loaded] is an
    optional Python value ([None] when the attribute does not exist);
    [sys.stdout] and [sys.stderr] are the log of the texts handed to their
    [write] methods.  What is fixed before the program runs, whether
    standard output accepts a text and the digit limit of integer
    formatting, is the [interpreter] the program is run by.  Statements run
    in a state-and-exception monad over that world. *)

From stdpp Require Import gmap strings list pretty.

(** ** Python values that the program inspects and formats *)

Inductive pyvalue : Type :=
  | PyNone
  | PyBool (b : bool)
  | PyInt (z : Z)
  | PyStr (s : string).

(** Truth value testing, as performed by [not value]. *)
Definition truthy (v : pyvalue) : bool :=
  match v with
  | PyNone => false
  | PyBool b => b
  | PyInt z => negb (Z.eqb z 0)
  | PyStr s => negb (String.eqb s "")
  end.

(** The text of [format(v, "")], which an f-string replacement field [{v}]
    yields when the formatting does not raise. *)
Definition py_format (v : pyvalue) : string :=
  match v with
  | PyNone => "None"
  | PyBool true => "True"
  | PyBool false => "False"
  | PyInt z => pretty z
  | PyStr s => s
  end.

(** The number of decimal digits of an integer, its sign apart. *)
Definition decimal_digits (z : Z) : N :=
  N.of_nat (String.length (pretty (Z.abs_N z))).

(** ** The world the process runs in *)

Inductive stream : Type := Stdout | Stderr.

Record world : Type := World {
  sys_argv : list string;
  os_environ : gmap string string;
  builtins_marker : option pyvalue;
  written : list (stream * string)
}.

Inductive exn : Type :=
  | SystemExit (code : Z)
  | AttributeError (attr : string)
  | IndexError
  | ValueError
  | UnicodeEncodeError (text : string)
  | OSError.

(** ** The interpreter *)

(** Why [sys.stdout.write] refuses a text: the codec of the stream, with
    its error handler, cannot encode it; there is no stream ([sys.stdout] is
    [None] when standard output was closed at start-up); the device fails
    under an unbuffered stream. *)
Inductive write_failure : Type := CannotEncode | NoStream | DeviceFailure.

(** What is fixed at interpreter start-up, from [PYTHONIOENCODING], the
    locale, the file descriptors and the interpreter's version and options:
    - [stdout_refuses text]: the failure of [sys.stdout.write(text)], if
      any;
    - [int_max_str_digits]: the most decimal digits an [int] may have when
      it is converted to text, [0] when there is no limit (4300 by default
      since CPython 3.11, at least 640 when set, no limit before). *)
Record interpreter : Type := Interpreter {
  stdout_refuses : string -> option write_failure;
  int_max_str_digits : N
}.

(** The exception a refused write raises. *)
Definition write_exn (f : write_failure) (text : string) : exn :=
  match f with
  | CannotEncode => UnicodeEncodeError text
  | NoStream => AttributeError "write"
  | DeviceFailure => OSError
  end.

Definition is_ascii_char (c : Ascii.ascii) : bool :=
  match c with Ascii.Ascii _ _ _ _ _ _ _ bit7 => negb bit7 end.

Fixpoint is_ascii (text : string) : bool :=
  match text with
  | EmptyString => true
  | String c rest => is_ascii_char c && is_ascii rest
  end.

(** CPython 3.11 started with [PYTHONIOENCODING=ascii]: standard output
    encodes ASCII text only, integers format up to 4300 digits. *)
Definition ascii_interpreter : interpreter :=
  {| stdout_refuses :=
       fun text => if is_ascii text then None else Some CannotEncode;
     int_max_str_digits := 4300 |}.

(** The same, started with [PYTHONINTMAXSTRDIGITS=640], the lowest limit
    that CPython lets one set. *)
Definition short_integers_interpreter : interpreter :=
  {| stdout_refuses := stdout_refuses ascii_interpreter;
     int_max_str_digits := 640 |}.

(** The letter e with an acute accent, U+00E9, in UTF-8. *)
Definition e_acute : string :=
  String (Ascii.ascii_of_nat 195) (String (Ascii.ascii_of_nat 169) "").

(** ** Statements: state passing with exceptions *)

Definition py (A : Type) : Type := world -> (exn + A) * world.

Definition ret {A} (a : A) : py A := fun w => (inr a, w).

Definition bind {A B} (m : py A) (k : A -> py B) : py B :=
  fun w =>
    match m w with
    | (inl e, w') => (inl e, w')
    | (inr a, w') => k a w'
    end.

Definition raise {A} (e : exn) : py A := fun w => (inl e, w).

Notation "x <- m ;; k" := (bind m (fun x => k))
  (at level 100, m at next level, right associativity).
Notation "m ;;; k" := (bind m (fun _ => k))
  (at level 100, right associativity).

Create HintDb read_only discriminated.
Create HintDb history discriminated.

Section Interpreter.

(** The interpreter that runs the program. *)
Variable cfg : interpreter.

(** ** Library operations used by the program *)

(** [os.environ.get(name)]: the value, or [None] when the name is unset. *)
Definition os_environ_get (name : string) : py pyvalue :=
  fun w =>
    match os_environ w !! name with
    | Some v => (inr (PyStr v), w)
    | None => (inr PyNone, w)
    end.

(** The text [text] reaches stream [s]. *)
Definition write_to (s : stream) (text : string) : py unit :=
  fun w =>
    (inr tt,
     {| sys_argv := sys_argv w;
        os_environ := os_environ w;
        builtins_marker := builtins_marker w;
        written := written w ++ [(s, text)] |}).

(** [sys.stdout.write(text)]: a refused text raises, with nothing
    written. *)
Definition sys_stdout_write (text : string) : py unit :=
  match stdout_refuses cfg text with
  | None => write_to Stdout text
  | Some f => raise (write_exn f text)
  end.

(** [sys.stderr.write(text)]: standard error escapes what its codec cannot
    encode ([backslashreplace]) and never raises; the log keeps the text
    handed to [write]. *)
Definition sys_stderr_write : string -> py unit := write_to Stderr.

(** [sys.exit(code)] raises [SystemExit]. *)
Definition sys_exit {A} (code : Z) : py A := raise (SystemExit code).

Definition marker_name : string :=
  "otel_injector_python_no_op_agent_has_been_loaded".

(** The attribute access
    [builtins.otel_injector_python_no_op_agent_has_been_loaded]:
    an attribute that does not exist raises [AttributeError]. *)
Definition builtins_getattr_marker : py pyvalue :=
  fun w =>
    match builtins_marker w with
    | Some v => (inr v, w)
    | None => (inl (AttributeError marker_name), w)
    end.

(** [len(sys.argv)] and [sys.argv[i]]. *)
Definition len_sys_argv : py nat := fun w => (inr (length (sys_argv w)), w).

Definition sys_argv_at (i : nat) : py string :=
  fun w =>
    match sys_argv w !! i with
    | Some a => (inr a, w)
    | None => (inl IndexError, w)
    end.

(** Formatting raises [ValueError] for an [int] with more digits than the
    limit, when there is one. *)
Definition format_raises (v : pyvalue) : bool :=
  match v with
  | PyInt z =>
      N.ltb 0 (int_max_str_digits cfg)
      && N.ltb (int_max_str_digits cfg) (decimal_digits z)
  | _ => false
  end.

(** The replacement field [{v}] of an f-string. *)
Definition format_value (v : pyvalue) : py string :=
  if format_raises v then raise ValueError else ret (py_format v).

(** ** The program *)

Definition echo_env_var (env_var_name : string) : py unit :=
  env_var_value <- os_environ_get env_var_name ;;
  if negb (truthy env_var_value) then
    sys_stdout_write (env_var_name +:+ ": -")
  else
    formatted <- format_value env_var_value ;;
    sys_stdout_write (env_var_name +:+ ": " +:+ formatted).

Definition echo_builtin_property : py unit :=
  value <- builtins_getattr_marker ;;
  if negb (truthy value) then
    sys_stdout_write "otel_injector_python_no_op_agent_has_been_loaded: -"
  else
    formatted <- format_value value ;;
    sys_stdout_write
      ("otel_injector_python_no_op_agent_has_been_loaded: " +:+ formatted).

(** The line feed character, written [\n] in the source. *)
Definition LF : Ascii.ascii :=
  Ascii.Ascii false true false true false false false false.

Definition newline : string := String LF "".

Definition usage_error : string :=
  "error: not enough arguments, the command for the app under test needs to be specifed"
  +:+ newline.

Definition missing_argument_error : string :=
  "error: custom-env-var command requires an additional argument" +:+ newline.

Definition unknown_command_error (command : string) : string :=
  "unknown test app command: " +:+ command +:+ newline.

Definition main : py unit :=
  n <- len_sys_argv ;;
  (if n <? 2 then
     sys_stderr_write usage_error ;;;
     sys_exit 1
   else ret tt) ;;;
  command <- sys_argv_at 1 ;;
  if String.eqb command "pythonpath" then
    echo_env_var "PYTHONPATH"
  else if String.eqb command
            "verify-auto-instrumentation-agent-has-been-injected" then
    echo_builtin_property
  else if String.eqb command "otel-resource-attributes" then
    echo_env_var "OTEL_RESOURCE_ATTRIBUTES"
  else if String.eqb command "custom-env-var" then
    n' <- len_sys_argv ;;
    (if n' <? 3 then
       sys_stderr_write missing_argument_error ;;;
       sys_exit 1
     else ret tt) ;;;
    name <- sys_argv_at 2 ;;
    echo_env_var name
  else
    sys_stderr_write (unknown_command_error command) ;;;
    sys_exit 1.

(** ** Running the module as a process *)

(** The world at start-up: nothing has been written yet. *)
Definition initial (argv : list string) (env : gmap string string)
    (marker : option pyvalue) : world :=
  {| sys_argv := argv; os_environ := env;
     builtins_marker := marker; written := [] |}.

Definition same_stream (s s' : stream) : bool :=
  match s, s' with
  | Stdout, Stdout | Stderr, Stderr => true
  | _, _ => false
  end.

(** The text that reached stream [s]: its writes, in order. *)
Fixpoint text_on (s : stream) (log : list (stream * string)) : string :=
  match log with
  | [] => ""
  | (s', t) :: rest =>
      if same_stream s s' then t +:+ text_on s rest else text_on s rest
  end.

(** What the interpreter does with the outcome of the module body: a normal
    return gives status 0, [SystemExit] gives its code, and any other
    exception is reported by the interpreter with status 1; this is the
    status the outcome of the module calls for (a device that fails when
    standard output is flushed at exit would turn it into 120).  [stdout] and
    [stderr] hold the texts the program handed to the two streams; the
    traceback that the interpreter itself prints on standard error for an
    uncaught exception is not part of [stderr]: [uncaught] records the
    exception, and with it that a traceback follows. *)
Record process : Type := Process {
  exit_status : Z;
  stdout : string;
  stderr : string;
  uncaught : option exn;
  final : world
}.

Definition status_of (o : exn + unit) : Z :=
  match o with
  | inr _ => 0
  | inl (SystemExit code) => code
  | inl _ => 1
  end.

Definition uncaught_of (o : exn + unit) : option exn :=
  match o with
  | inr _ => None
  | inl (SystemExit _) => None
  | inl e => Some e
  end.

Definition run (argv : list string) (env : gmap string string)
    (marker : option pyvalue) : process :=
  let '(o, w) := main (initial argv env marker) in
  {| exit_status := status_of o;
     stdout := text_on Stdout (written w);
     stderr := text_on Stderr (written w);
     uncaught := uncaught_of o;
     final := w |}.

(** The world [w] after the texts of [log] have been written. *)
Definition logged (w : world) (log : list (stream * string)) : world :=
  {| sys_argv := sys_argv w; os_environ := os_environ w;
     builtins_marker := builtins_marker w; written := written w ++ log |}.

(** ** Vocabulary of the specification *)

(** The first arguments that [main] dispatches on. *)
Definition subcommands : list string :=
  [ "pythonpath";
    "verify-auto-instrumentation-agent-has-been-injected";
    "otel-resource-attributes";
    "custom-env-var" ].

(** [echoes argv label]: [argv] invokes an environment-variable-echoing
    command whose label, and looked-up variable, is [label]. *)
Inductive echoes : list string -> string -> Prop :=
  | echoes_pythonpath prog rest :
      echoes (prog :: "pythonpath" :: rest) "PYTHONPATH"
  | echoes_resource_attributes prog rest :
      echoes (prog :: "otel-resource-attributes" :: rest)
             "OTEL_RESOURCE_ATTRIBUTES"
  | echoes_custom prog name rest :
      echoes (prog :: "custom-env-var" :: name :: rest) name.

(** [contains s t]: the text [t] occurs in [s]. *)
Definition contains (s t : string) : Prop :=
  exists before after, s = before +:+ t +:+ after.

(** [well_formed argv]: a recognized subcommand with the arguments it
    requires. *)
Definition well_formed (argv : list string) : bool :=
  match argv with
  | _ :: command :: rest =>
      if String.eqb command "custom-env-var" then
        match rest with [] => false | _ :: _ => true end
      else existsb (String.eqb command) subcommands
  | _ => false
  end.

Definition verify_command : string :=
  "verify-auto-instrumentation-agent-has-been-injected".

(** [reads_marker argv]: the invocation is the one that reads the marker. *)
Definition reads_marker (argv : list string) : bool :=
  match argv with
  | _ :: command :: _ => String.eqb command verify_command
  | _ => false
  end.

(** The label a well-formed invocation prints. *)
Definition label_of (argv : list string) : string :=
  match argv with
  | _ :: command :: rest =>
      if String.eqb command "pythonpath" then "PYTHONPATH"
      else if String.eqb command verify_command then marker_name
      else if String.eqb command "otel-resource-attributes" then
        "OTEL_RESOURCE_ATTRIBUTES"
      else match rest with name :: _ => name | [] => "" end
  | _ => ""
  end.

(** The value a well-formed invocation looks up; [None] when it is missing. *)
Definition looked_up (argv : list string) (env : gmap string string)
    (marker : option pyvalue) : option pyvalue :=
  if reads_marker argv then marker else PyStr <$> env !! label_of argv.

(** The text shown for a looked-up value. *)
Definition shown (o : option pyvalue) : string :=
  match o with
  | Some v => if truthy v then py_format v else "-"
  | None => "-"
  end.

(** Formatting the looked-up value raises: only a truthy value is
    formatted. *)
Definition format_fails (o : option pyvalue) : bool :=
  match o with
  | Some v => truthy v && format_raises v
  | None => false
  end.

(** The message an invocation that is not well-formed is rejected with. *)
Definition error_text (argv : list string) : string :=
  match argv with
  | _ :: command :: _ =>
      if String.eqb command "custom-env-var" then missing_argument_error
      else unknown_command_error command
  | _ => usage_error
  end.

(** Lines of a text: [line_count] counts them (a last line need not be
    terminated), [ends_with_newline] tells whether the last one is
    terminated, [newline_free] that no line feed occurs at all. *)
Fixpoint newline_free (t : string) : bool :=
  match t with
  | EmptyString => true
  | String c rest => negb (Ascii.eqb c LF) && newline_free rest
  end.

Fixpoint line_count (t : string) : nat :=
  match t with
  | EmptyString => 0
  | String c rest =>
      if Ascii.eqb c LF then S (line_count rest)
      else match rest with
           | EmptyString => 1
           | String _ _ => line_count rest
           end
  end.

Fixpoint ends_with_newline (t : string) : bool :=
  match t with
  | EmptyString => false
  | String c EmptyString => Ascii.eqb c LF
  | String _ rest => ends_with_newline rest
  end.

(** Two argument lists that agree on the program name, the subcommand and,
    for [custom-env-var], the variable name, whatever follows. *)
Inductive same_up_to_trailing : list string -> list string -> Prop :=
  | trailing_after_command prog command rest1 rest2 :
      command <> "custom-env-var" ->
      same_up_to_trailing (prog :: command :: rest1) (prog :: command :: rest2)
  | trailing_after_name prog name rest1 rest2 :
      same_up_to_trailing (prog :: "custom-env-var" :: name :: rest1)
                          (prog :: "custom-env-var" :: name :: rest2).

(** A statement is read-only when all it does to the world is append to
    the log of writes. *)
Definition read_only {A} (m : py A) : Prop :=
  forall w, exists log, snd (m w) = logged w log.

(** The echo commands as the specification words them: the dash for an
    unset or empty variable, the exact value otherwise, in every
    environment. *)
Definition echo_as_stated (argv : list string) (label : string)
    (env : gmap string string) (marker : option pyvalue) : Prop :=
  (env !! label = None \/ env !! label = Some "" ->
     stdout (run argv env marker) = label +:+ ": -")
  /\ (forall value, env !! label = Some value -> value <> "" ->
        stdout (run argv env marker) = label +:+ ": " +:+ value).

(** The output contract as the specification words it: on a well-formed
    invocation, one line on standard output, not terminated by a line feed,
    of the form [<label>: <value>], where the value is [-] exactly when the
    looked-up value is missing or the empty string. *)
Definition output_contract_as_stated (argv : list string)
    (env : gmap string string) (marker : option pyvalue) : Prop :=
  well_formed argv = true ->
  exists value,
    stdout (run argv env marker) = label_of argv +:+ ": " +:+ value
    /\ line_count (stdout (run argv env marker)) = 1
    /\ ends_with_newline (stdout (run argv env marker)) = false
    /\ (value = "-" <->
          looked_up argv env marker = None
          \/ looked_up argv env marker = Some (PyStr "")).

(** The effects as the specification words them: the world is left as it
    was, and at most one line is written, to standard output on success and
    to standard error on failure. *)
Definition effects_as_stated (argv : list string)
    (env : gmap string string) (marker : option pyvalue) : Prop :=
  let p := run argv env marker in
  os_environ (final p) = env
  /\ builtins_marker (final p) = marker
  /\ sys_argv (final p) = argv
  /\ (exit_status p = 0%Z ->
        line_count (stdout p) <= 1 /\ stderr p = "")
  /\ (exit_status p <> 0%Z ->
        line_count (stderr p) <= 1 /\ stdout p = "").

(** ** Vocabulary of the further properties *)

(** What is recorded of a process: the texts handed to the two streams,
    the exit status and the uncaught exception. *)
Definition observation (p : process) : string * string * Z * option exn :=
  (stdout p, stderr p, exit_status p, uncaught p).

(** The world [w] with the writes of [history] made before its own. *)
Definition with_history (history : list (stream * string)) (w : world) : world :=
  {| sys_argv := sys_argv w; os_environ := os_environ w;
     builtins_marker := builtins_marker w;
     written := history ++ written w |}.

(** A statement is history-independent when earlier writes change nothing
    but the front of the log. *)
Definition history_independent {A} (m : py A) : Prop :=
  forall history w,
    m (with_history history w)
    = (fst (m w), with_history history (snd (m w))).


(** ** Running the primitives *)

Lemma append_cons c (s t : string) : String c s +:+ t = String c (s +:+ t).
Proof. reflexivity. Qed.

Lemma string_app_empty_r (s : string) : s +:+ "" = s.
Proof.
  induction s as [|c s IH]; [reflexivity | now rewrite append_cons, IH].
Qed.

Lemma text_on_single s t : text_on s [(s, t)] = t.
Proof. destruct s; simpl; apply string_app_empty_r. Qed.

Lemma text_on_other s s' t : s <> s' -> text_on s [(s', t)] = "".
Proof. destruct s, s'; simpl; congruence. Qed.

Lemma sys_stdout_write_accepted text w :
  stdout_refuses cfg text = None ->
  sys_stdout_write text w = (inr tt, logged w [(Stdout, text)]).
Proof. intros H. unfold sys_stdout_write. now rewrite H. Qed.

Lemma sys_stdout_write_refused text f w :
  stdout_refuses cfg text = Some f ->
  sys_stdout_write text w = (inl (write_exn f text), w).
Proof. intros H. unfold sys_stdout_write. now rewrite H. Qed.

Lemma write_exn_status f text :
  status_of (inl (write_exn f text)) = 1%Z
  /\ uncaught_of (inl (write_exn f text)) = Some (write_exn f text).
Proof. destruct f; split; reflexivity. Qed.

(** ** The echo operations *)

(** An environment value is a [str]: formatting it does not raise. *)
Lemma format_fails_env (o : option string) : format_fails (PyStr <$> o) = false.
Proof. destruct o; simpl; [apply andb_false_r | reflexivity]. Qed.

Lemma echo_env_var_run label w :
  echo_env_var label w
  = sys_stdout_write
      (label +:+ ": " +:+ shown (PyStr <$> os_environ w !! label)) w.
Proof.
  unfold echo_env_var, bind, os_environ_get.
  destruct (os_environ w !! label) as [v|]; simpl; [|reflexivity].
  destruct (String.eqb v ""); reflexivity.
Qed.

Lemma echo_builtin_property_absent w :
  builtins_marker w = None ->
  echo_builtin_property w = (inl (AttributeError marker_name), w).
Proof.
  intros H. unfold echo_builtin_property, bind, builtins_getattr_marker.
  now rewrite H.
Qed.

Lemma echo_builtin_property_run v w :
  builtins_marker w = Some v ->
  echo_builtin_property w
  = if format_fails (Some v) then (inl ValueError, w)
    else sys_stdout_write (marker_name +:+ ": " +:+ shown (Some v)) w.
Proof.
  intros H. unfold echo_builtin_property, bind, builtins_getattr_marker.
  rewrite H. simpl. destruct (truthy v); simpl; [|reflexivity].
  unfold format_value. destruct (format_raises v); reflexivity.
Qed.

(** ** The dispatch of [main] *)

Lemma main_no_command argv env marker :
  length argv < 2 ->
  main (initial argv env marker)
  = (inl (SystemExit 1), logged (initial argv env marker) [(Stderr, usage_error)]).
Proof.
  intros H. destruct argv as [|prog [|command rest]]; simpl in H;
    [reflexivity | reflexivity | lia].
Qed.

Lemma main_pythonpath prog rest env marker :
  main (initial (prog :: "pythonpath" :: rest) env marker)
  = echo_env_var "PYTHONPATH" (initial (prog :: "pythonpath" :: rest) env marker).
Proof. reflexivity. Qed.

Lemma main_verify prog rest env marker :
  let argv := prog :: "verify-auto-instrumentation-agent-has-been-injected" :: rest in
  main (initial argv env marker) = echo_builtin_property (initial argv env marker).
Proof. reflexivity. Qed.

Lemma main_resource_attributes prog rest env marker :
  let argv := prog :: "otel-resource-attributes" :: rest in
  main (initial argv env marker)
  = echo_env_var "OTEL_RESOURCE_ATTRIBUTES" (initial argv env marker).
Proof. reflexivity. Qed.

Lemma main_custom_missing prog env marker :
  let argv := [prog; "custom-env-var"] in
  main (initial argv env marker)
  = (inl (SystemExit 1),
     logged (initial argv env marker) [(Stderr, missing_argument_error)]).
Proof. reflexivity. Qed.

Lemma main_custom prog name rest env marker :
  let argv := prog :: "custom-env-var" :: name :: rest in
  main (initial argv env marker) = echo_env_var name (initial argv env marker).
Proof. reflexivity. Qed.

Lemma main_unknown prog command rest env marker :
  command ∉ subcommands ->
  let argv := prog :: command :: rest in
  main (initial argv env marker)
  = (inl (SystemExit 1),
     logged (initial argv env marker) [(Stderr, unknown_command_error command)]).
Proof.
  intros H argv. unfold subcommands in H.
  rewrite !not_elem_of_cons in H. destruct H as (H1 & H2 & H3 & H4 & _).
  unfold main, bind, argv. simpl.
  apply String.eqb_neq in H1, H2, H3, H4.
  now rewrite H1, H2, H3, H4.
Qed.

(** ** From the outcome of [main] to the process *)

Lemma run_main argv env marker o w :
  main (initial argv env marker) = (o, w) ->
  run argv env marker
  = {| exit_status := status_of o;
       stdout := text_on Stdout (written w);
       stderr := text_on Stderr (written w);
       uncaught := uncaught_of o;
       final := w |}.
Proof. intros H. unfold run. now rewrite H. Qed.

(** A run whose body made the single write [(s, t)]. *)
Lemma run_single_write argv env marker o s t :
  main (initial argv env marker)
  = (o, logged (initial argv env marker) [(s, t)]) ->
  exit_status (run argv env marker) = status_of o
  /\ uncaught (run argv env marker) = uncaught_of o
  /\ written (final (run argv env marker)) = [(s, t)]
  /\ text_on s (written (final (run argv env marker))) = t
  /\ (forall s', s' <> s ->
        text_on s' (written (final (run argv env marker))) = "")
  /\ stdout (run argv env marker)
     = text_on Stdout (written (final (run argv env marker)))
  /\ stderr (run argv env marker)
     = text_on Stderr (written (final (run argv env marker))).
Proof.
  intros H. rewrite (run_main _ _ _ _ _ H). simpl.
  repeat split; [apply text_on_single | intros s' Hs'; now apply text_on_other].
Qed.

(** A run whose body raised before any write. *)
Lemma run_raised argv env marker e :
  main (initial argv env marker) = (inl e, initial argv env marker) ->
  exit_status (run argv env marker) = status_of (inl e)
  /\ uncaught (run argv env marker) = uncaught_of (inl e)
  /\ written (final (run argv env marker)) = []
  /\ stdout (run argv env marker) = ""
  /\ stderr (run argv env marker) = "".
Proof. intros H. rewrite (run_main _ _ _ _ _ H). repeat split. Qed.

Ltac single_write H :=
  cbv zeta;
  destruct (run_single_write _ _ _ _ _ _ H)
    as (Hstatus & Huncaught & Hlog & Htext & Hother & Hout & Herr).

(** ** Environment-variable-echoing commands *)

Lemma echoes_main argv label env marker :
  echoes argv label ->
  main (initial argv env marker)
  = echo_env_var label (initial argv env marker).
Proof. intros []; reflexivity. Qed.

Lemma echoes_vocabulary argv label env marker :
  echoes argv label ->
  well_formed argv = true
  /\ reads_marker argv = false
  /\ label_of argv = label
  /\ looked_up argv env marker = PyStr <$> env !! label.
Proof. intros []; repeat split; reflexivity. Qed.

Lemma shown_unset_or_empty (o : option string) :
  o = None \/ o = Some "" -> shown (PyStr <$> o) = "-".
Proof. intros [-> | ->]; reflexivity. Qed.

Lemma shown_set (value : string) :
  value <> "" -> shown (PyStr <$> Some value) = value.
Proof.
  intros Hne. simpl. now destruct (String.eqb_spec value "").
Qed.

(** C1, as amended: for each environment-variable-echoing command
    ([pythonpath], [otel-resource-attributes], [custom-env-var <name>]) and
    every environment, the program writes [<label>: -] to standard output
    when the variable is unset or set to the empty string, and
    [<label>: <value>], with the exact value, otherwise, provided
    [sys.stdout.write] accepts that text; when it refuses it (the codec of
    standard output cannot encode it: [UnicodeEncodeError]), the write
    raises, nothing is written and the process ends with status 1. *)
Theorem echo_command_writes_accepted_text argv label env marker :
  echoes argv label ->
  let p := run argv env marker in
  let text := label +:+ ": " +:+ shown (PyStr <$> env !! label) in
  (env !! label = None \/ env !! label = Some "" ->
     stdout_refuses cfg (label +:+ ": -") = None ->
     written (final p) = [(Stdout, label +:+ ": -")]
     /\ stdout p = label +:+ ": -")
  /\ (forall value, env !! label = Some value -> value <> "" ->
     stdout_refuses cfg (label +:+ ": " +:+ value) = None ->
     written (final p) = [(Stdout, label +:+ ": " +:+ value)]
     /\ stdout p = label +:+ ": " +:+ value)
  /\ (forall f, stdout_refuses cfg text = Some f ->
     uncaught p = Some (write_exn f text)
     /\ written (final p) = []
     /\ stdout p = ""
     /\ exit_status p = 1%Z).
Proof.
  intros Hecho. cbv zeta.
  pose proof (echoes_main _ _ env marker Hecho) as Hmain.
  rewrite echo_env_var_run in Hmain. simpl os_environ in Hmain.
  repeat apply conj.
  - intros Hunset Haccepts. rewrite (shown_unset_or_empty _ Hunset) in Hmain.
    rewrite sys_stdout_write_accepted in Hmain by exact Haccepts.
    single_write Hmain. rewrite Hout, Htext. auto.
  - intros value Hset Hne Haccepts. rewrite Hset, (shown_set _ Hne) in Hmain.
    rewrite sys_stdout_write_accepted in Hmain by exact Haccepts.
    single_write Hmain. rewrite Hout, Htext. auto.
  - intros f Hrefuses.
    rewrite (sys_stdout_write_refused _ f) in Hmain by exact Hrefuses.
    destruct (run_raised _ _ _ _ Hmain) as (Hs & Hu & Hw & Ho & _).
    destruct (write_exn_status f
                (label +:+ ": " +:+ shown (PyStr <$> env !! label)))
      as [Hstatus Huncaught].
    rewrite Hs, Hu, Hw, Ho. auto.
Qed.

(** ** Error exits *)

(** C3: a first argument that is none of the four subcommands makes the
    program write [unknown test app command: <command>] (followed by a line
    feed) to standard error, exit with status 1, and write nothing to
    standard output. *)
Theorem unknown_command_is_rejected prog command rest env marker :
  command ∉ subcommands ->
  let p := run (prog :: command :: rest) env marker in
  stderr p = unknown_command_error command
  /\ contains (stderr p) ("unknown test app command: " +:+ command)
  /\ exit_status p = 1%Z
  /\ exit_status p <> 0%Z
  /\ stdout p = ""
  /\ written (final p) = [(Stderr, unknown_command_error command)].
Proof.
  intros Hunknown.
  pose proof (main_unknown prog command rest env marker Hunknown) as H.
  simpl in H. single_write H.
  rewrite Hout, Herr, Htext, Hstatus, (Hother Stdout) by discriminate.
  repeat split; try done.
  exists "", newline. reflexivity.
Qed.

(** C4: invoked without a subcommand argument ([len(sys.argv) < 2]), the
    program writes the usage error, the line [error: not enough arguments,
    the command for the app under test needs to be specifed], to standard
    error, exits with status 1 and writes nothing to standard output. *)
Theorem missing_command_is_rejected argv env marker :
  length argv < 2 ->
  let p := run argv env marker in
  stderr p
  = "error: not enough arguments, the command for the app under test needs to be specifed"
    +:+ String (Ascii.ascii_of_nat 10) ""
  /\ stderr p = usage_error
  /\ exit_status p = 1%Z
  /\ exit_status p <> 0%Z
  /\ stdout p = ""
  /\ written (final p) = [(Stderr, usage_error)].
Proof.
  intros Hlen. pose proof (main_no_command argv env marker Hlen) as H.
  single_write H.
  rewrite Hout, Herr, Htext, Hstatus, (Hother Stdout) by discriminate.
  repeat split; done.
Qed.

(** C5: [custom-env-var] without a second argument makes the program write
    its missing-argument error, the line [error: custom-env-var command
    requires an additional argument], to standard error, exit with status 1
    and write nothing to standard output. *)
Theorem custom_env_var_requires_name prog env marker :
  let p := run [prog; "custom-env-var"] env marker in
  stderr p
  = "error: custom-env-var command requires an additional argument"
    +:+ String (Ascii.ascii_of_nat 10) ""
  /\ stderr p = missing_argument_error
  /\ stderr p <> usage_error
  /\ exit_status p = 1%Z
  /\ exit_status p <> 0%Z
  /\ stdout p = ""
  /\ written (final p) = [(Stderr, missing_argument_error)].
Proof.
  pose proof (main_custom_missing prog env marker) as H.
  simpl in H. single_write H.
  rewrite Hout, Herr, Htext, Hstatus, (Hother Stdout) by discriminate.
  repeat split; done.
Qed.

(** C10: an empty first argument is an unknown command, not a missing one:
    the program writes [unknown test app command: ] with the empty name to
    standard error, which is not the usage error, and exits with status 1. *)
Theorem empty_command_is_unknown prog rest env marker :
  let p := run (prog :: "" :: rest) env marker in
  stderr p = "unknown test app command: " +:+ newline
  /\ stderr p = unknown_command_error ""
  /\ stderr p <> usage_error
  /\ exit_status p = 1%Z
  /\ stdout p = "".
Proof.
  assert ("" ∉ subcommands) as Hunknown.
  { unfold subcommands. rewrite !not_elem_of_cons.
    repeat split; try discriminate. apply not_elem_of_nil. }
  pose proof (main_unknown prog "" rest env marker Hunknown) as H.
  simpl in H. single_write H.
  rewrite Hout, Herr, Htext, Hstatus, (Hother Stdout) by discriminate.
  repeat split; done.
Qed.

(** ** The ways an invocation ends *)

(** Case analysis on the command, in the order [main] tests it. *)
Ltac dispatch command :=
  destruct (String.eqb command "pythonpath") eqn:Epythonpath;
    [apply String.eqb_eq in Epythonpath; subst command|];
  [|destruct (String.eqb command verify_command) eqn:Everify;
    [apply String.eqb_eq in Everify; subst command|]];
  [| |destruct (String.eqb command "otel-resource-attributes") eqn:Eattributes;
    [apply String.eqb_eq in Eattributes; subst command|]];
  [| | |destruct (String.eqb command "custom-env-var") eqn:Ecustom;
    [apply String.eqb_eq in Ecustom; subst command|]].

(** A well-formed invocation is the marker command or an echo command. *)
Lemma well_formed_cases argv :
  well_formed argv = true ->
  reads_marker argv = true \/ exists label, echoes argv label.
Proof.
  destruct argv as [|prog [|command rest]]; try discriminate.
  unfold well_formed, reads_marker, subcommands, existsb. fold verify_command.
  dispatch command; intros Hwf.
  - right. eexists. constructor.
  - left. reflexivity.
  - right. eexists. constructor.
  - destruct rest as [|name rest]; [discriminate|].
    right. eexists. constructor.
  - discriminate.
Qed.

Lemma main_well_formed argv env marker :
  well_formed argv = true ->
  (reads_marker argv = true -> marker <> None) ->
  main (initial argv env marker)
  = if format_fails (looked_up argv env marker) then
      (inl ValueError, initial argv env marker)
    else
      sys_stdout_write
        (label_of argv +:+ ": " +:+ shown (looked_up argv env marker))
        (initial argv env marker).
Proof.
  intros Hwf Hmarker.
  destruct (well_formed_cases argv Hwf) as [Hreads | [label Hecho]].
  - destruct marker as [v|]; [|now destruct Hmarker].
    destruct argv as [|prog [|command rest]]; try discriminate.
    simpl in Hreads. apply String.eqb_eq in Hreads. subst command.
    rewrite main_verify. now rewrite (echo_builtin_property_run v).
  - destruct (echoes_vocabulary argv label env marker Hecho)
      as (_ & _ & -> & ->).
    rewrite format_fails_env, (echoes_main _ _ _ _ Hecho).
    apply echo_env_var_run.
Qed.

Lemma main_marker_absent argv env :
  well_formed argv = true ->
  reads_marker argv = true ->
  main (initial argv env None)
  = (inl (AttributeError marker_name), initial argv env None).
Proof.
  destruct argv as [|prog [|command rest]]; try discriminate.
  intros _ Hreads. simpl in Hreads. apply String.eqb_eq in Hreads.
  subst command. reflexivity.
Qed.

Lemma not_a_subcommand command :
  String.eqb command "pythonpath" = false ->
  String.eqb command verify_command = false ->
  String.eqb command "otel-resource-attributes" = false ->
  String.eqb command "custom-env-var" = false ->
  command ∉ subcommands.
Proof.
  intros H1 H2 H3 H4. apply String.eqb_neq in H1, H2, H3, H4.
  unfold subcommands. fold verify_command. rewrite !not_elem_of_cons.
  repeat split; try assumption. apply not_elem_of_nil.
Qed.

Lemma main_ill_formed argv env marker :
  well_formed argv = false ->
  main (initial argv env marker)
  = (inl (SystemExit 1),
     logged (initial argv env marker) [(Stderr, error_text argv)]).
Proof.
  destruct argv as [|prog [|command rest]]; try reflexivity.
  unfold well_formed, subcommands, existsb. fold verify_command.
  dispatch command; try discriminate; intros Hwf.
  - destruct rest; [reflexivity | discriminate].
  - unfold error_text. rewrite Ecustom. apply main_unknown.
    now apply not_a_subcommand.
Qed.

Lemma run_well_formed argv env marker :
  well_formed argv = true ->
  (reads_marker argv = true -> marker <> None) ->
  format_fails (looked_up argv env marker) = false ->
  let t := label_of argv +:+ ": " +:+ shown (looked_up argv env marker) in
  stdout_refuses cfg t = None ->
  exit_status (run argv env marker) = 0%Z
  /\ uncaught (run argv env marker) = None
  /\ written (final (run argv env marker)) = [(Stdout, t)]
  /\ stdout (run argv env marker) = t
  /\ stderr (run argv env marker) = "".
Proof.
  intros Hwf Hmarker Hformat t Haccepts.
  pose proof (main_well_formed _ env _ Hwf Hmarker) as H.
  rewrite Hformat, sys_stdout_write_accepted in H by exact Haccepts.
  single_write H.
  rewrite Hout, Herr, Htext, Hstatus, Huncaught, (Hother Stderr) by discriminate.
  repeat split; done.
Qed.

Lemma run_format_fails argv env marker :
  well_formed argv = true ->
  (reads_marker argv = true -> marker <> None) ->
  format_fails (looked_up argv env marker) = true ->
  exit_status (run argv env marker) = 1%Z
  /\ uncaught (run argv env marker) = Some ValueError
  /\ written (final (run argv env marker)) = []
  /\ stdout (run argv env marker) = ""
  /\ stderr (run argv env marker) = "".
Proof.
  intros Hwf Hmarker Hformat.
  pose proof (main_well_formed _ env _ Hwf Hmarker) as H.
  rewrite Hformat in H. exact (run_raised _ _ _ _ H).
Qed.

Lemma run_refused argv env marker f :
  well_formed argv = true ->
  (reads_marker argv = true -> marker <> None) ->
  format_fails (looked_up argv env marker) = false ->
  let t := label_of argv +:+ ": " +:+ shown (looked_up argv env marker) in
  stdout_refuses cfg t = Some f ->
  exit_status (run argv env marker) = 1%Z
  /\ uncaught (run argv env marker) = Some (write_exn f t)
  /\ written (final (run argv env marker)) = []
  /\ stdout (run argv env marker) = ""
  /\ stderr (run argv env marker) = "".
Proof.
  intros Hwf Hmarker Hformat t Hrefuses.
  pose proof (main_well_formed _ env _ Hwf Hmarker) as H.
  rewrite Hformat, (sys_stdout_write_refused _ f) in H by exact Hrefuses.
  destruct (run_raised _ _ _ _ H) as (Hs & Hu & Hw & Ho & He).
  destruct (write_exn_status f t) as [Hstatus Huncaught].
  rewrite Hs, Hu, Hw, Ho, He. auto.
Qed.

Lemma run_ill_formed argv env marker :
  well_formed argv = false ->
  exit_status (run argv env marker) = 1%Z
  /\ uncaught (run argv env marker) = None
  /\ written (final (run argv env marker)) = [(Stderr, error_text argv)]
  /\ stdout (run argv env marker) = ""
  /\ stderr (run argv env marker) = error_text argv.
Proof.
  intros Hwf. pose proof (main_ill_formed _ env marker Hwf) as H.
  single_write H.
  rewrite Hout, Herr, Htext, Hstatus, Huncaught, (Hother Stdout) by discriminate.
  repeat split; done.
Qed.

Lemma run_marker_absent argv env :
  well_formed argv = true ->
  reads_marker argv = true ->
  exit_status (run argv env None) = 1%Z
  /\ uncaught (run argv env None) = Some (AttributeError marker_name)
  /\ written (final (run argv env None)) = []
  /\ stdout (run argv env None) = ""
  /\ stderr (run argv env None) = "".
Proof.
  intros Hwf Hreads.
  exact (run_raised _ _ _ _ (main_marker_absent _ env Hwf Hreads)).
Qed.

(** The status, exception and writes of a run, by cases on the arguments,
    the marker, the digit limit and what standard output accepts. *)
Lemma run_summary argv env marker :
  let p := run argv env marker in
  let t := label_of argv +:+ ": " +:+ shown (looked_up argv env marker) in
  (exit_status p, uncaught p, written (final p))
  = if well_formed argv then
      if reads_marker argv && bool_decide (marker = None) then
        (1%Z, Some (AttributeError marker_name), [])
      else if format_fails (looked_up argv env marker) then
        (1%Z, Some ValueError, [])
      else match stdout_refuses cfg t with
           | None => (0%Z, None, [(Stdout, t)])
           | Some f => (1%Z, Some (write_exn f t), [])
           end
    else (1%Z, None, [(Stderr, error_text argv)]).
Proof.
  cbv zeta. destruct (well_formed argv) eqn:Hwf.
  - assert (reads_marker argv && bool_decide (marker = None) = false
            -> reads_marker argv = true -> marker <> None) as Hpresent.
    { intros H Hreads. rewrite Hreads in H. simpl in H.
      now apply bool_decide_eq_false in H. }
    destruct (reads_marker argv && bool_decide (marker = None)) eqn:Habsent.
    + apply andb_true_iff in Habsent as [Hreads ->%bool_decide_eq_true].
      destruct (run_marker_absent argv env Hwf Hreads) as (-> & -> & -> & _).
      reflexivity.
    + specialize (Hpresent eq_refl).
      destruct (format_fails (looked_up argv env marker)) eqn:Hformat.
      * destruct (run_format_fails argv env marker Hwf Hpresent Hformat)
          as (-> & -> & -> & _).
        reflexivity.
      * destruct (stdout_refuses cfg _) as [f|] eqn:Hrefuses.
        -- destruct (run_refused argv env marker f Hwf Hpresent Hformat
                       Hrefuses) as (-> & -> & -> & _).
           reflexivity.
        -- destruct (run_well_formed argv env marker Hwf Hpresent Hformat
                       Hrefuses) as (-> & -> & -> & _).
           reflexivity.
  - destruct (run_ill_formed argv env marker Hwf) as (-> & -> & -> & _).
    reflexivity.
Qed.

(** ** The marker command *)

(** With the attribute present and formattable, and the text accepted, the
    command prints the dash for a falsy value and the formatted value
    otherwise, and returns normally. *)
Lemma verify_with_marker prog rest env v :
  format_fails (Some v) = false ->
  stdout_refuses cfg (marker_name +:+ ": " +:+ shown (Some v)) = None ->
  let p := run (prog :: verify_command :: rest) env (Some v) in
  stdout p = marker_name +:+ ": " +:+ (if truthy v then py_format v else "-")
  /\ exit_status p = 0%Z
  /\ uncaught p = None.
Proof.
  intros Hformat Haccepts.
  destruct (run_well_formed (prog :: verify_command :: rest) env (Some v))
    as (Hs & Hu & _ & Ho & _);
    [reflexivity | discriminate | exact Hformat | exact Haccepts |].
  cbv zeta. rewrite Hs, Hu, Ho. repeat split; done.
Qed.

(** C2, on the input where it fails: with the marker attribute absent, the
    attribute access of [echo_builtin_property] raises [AttributeError];
    nothing is written to standard output and the process ends with
    status 1 instead of printing the dash. *)
Theorem verify_without_marker_raises prog rest env :
  let p := run (prog :: verify_command :: rest) env None in
  uncaught p = Some (AttributeError marker_name)
  /\ exit_status p = 1%Z
  /\ stdout p = ""
  /\ written (final p) = [].
Proof.
  destruct (run_marker_absent (prog :: verify_command :: rest) env)
    as (Hs & Hu & Hw & Ho & _); [reflexivity | reflexivity |].
  cbv zeta. rewrite Hs, Hu, Hw, Ho. repeat split; done.
Qed.

(** ** Exit status *)

Lemma exit_status_ill_formed argv env marker :
  well_formed argv = false -> exit_status (run argv env marker) = 1%Z.
Proof. intros Hwf. now apply run_ill_formed. Qed.

(** C7, on the input where it fails: the marker command, a recognized
    subcommand that requires no argument, ends with status 1 when the marker
    attribute is absent. *)
Theorem exit_status_of_verify_without_marker :
  well_formed ["app.py"; verify_command] = true
  /\ exit_status (run ["app.py"; verify_command] ∅ None) = 1%Z.
Proof.
  split; [reflexivity|].
  destruct (run_marker_absent ["app.py"; verify_command] ∅) as [Hstatus _];
    [reflexivity | reflexivity | exact Hstatus].
Qed.

(** ** Trailing arguments *)

(** What [main] returns and writes does not depend on the arguments after
    the command. *)
Lemma main_ignores_rest prog command rest1 rest2 env marker :
  command <> "custom-env-var" ->
  let r1 := main (initial (prog :: command :: rest1) env marker) in
  let r2 := main (initial (prog :: command :: rest2) env marker) in
  fst r1 = fst r2 /\ written (snd r1) = written (snd r2).
Proof.
  intros Hcommand. cbv zeta. dispatch command.
  - rewrite !main_pythonpath, !echo_env_var_run. unfold sys_stdout_write.
    simpl os_environ. destruct (stdout_refuses cfg _); split; reflexivity.
  - rewrite !main_verify. destruct marker as [v|].
    + rewrite !(echo_builtin_property_run v) by reflexivity.
      unfold sys_stdout_write.
      destruct (format_fails (Some v)); [split; reflexivity|].
      destruct (stdout_refuses cfg _); split; reflexivity.
    + rewrite !echo_builtin_property_absent by reflexivity.
      split; reflexivity.
  - rewrite !main_resource_attributes, !echo_env_var_run.
    unfold sys_stdout_write. simpl os_environ.
    destruct (stdout_refuses cfg _); split; reflexivity.
  - contradiction.
  - rewrite !main_unknown; [split; reflexivity | |];
      now apply not_a_subcommand.
Qed.

Lemma main_ignores_rest_after_name prog name rest1 rest2 env marker :
  let r1 := main (initial (prog :: "custom-env-var" :: name :: rest1) env marker) in
  let r2 := main (initial (prog :: "custom-env-var" :: name :: rest2) env marker) in
  fst r1 = fst r2 /\ written (snd r1) = written (snd r2).
Proof.
  cbv zeta. rewrite !main_custom, !echo_env_var_run. unfold sys_stdout_write.
  simpl os_environ. destruct (stdout_refuses cfg _); split; reflexivity.
Qed.

Lemma run_observed argv env marker :
  let r := main (initial argv env marker) in
  exit_status (run argv env marker) = status_of (fst r)
  /\ uncaught (run argv env marker) = uncaught_of (fst r)
  /\ stdout (run argv env marker) = text_on Stdout (written (snd r))
  /\ stderr (run argv env marker) = text_on Stderr (written (snd r)).
Proof.
  cbv zeta. unfold run. destruct (main (initial argv env marker)) as [o w].
  repeat split; reflexivity.
Qed.

(** C9: two invocations in the same environment and marker state whose
    arguments agree on the program name, the subcommand and, for
    [custom-env-var], the variable name produce the same standard output,
    standard error and exit status, whatever arguments follow. *)
Theorem trailing_arguments_are_ignored argv1 argv2 env marker :
  same_up_to_trailing argv1 argv2 ->
  stdout (run argv1 env marker) = stdout (run argv2 env marker)
  /\ stderr (run argv1 env marker) = stderr (run argv2 env marker)
  /\ exit_status (run argv1 env marker) = exit_status (run argv2 env marker)
  /\ uncaught (run argv1 env marker) = uncaught (run argv2 env marker).
Proof.
  intros Hsame.
  assert (fst (main (initial argv1 env marker))
          = fst (main (initial argv2 env marker))
          /\ written (snd (main (initial argv1 env marker)))
             = written (snd (main (initial argv2 env marker)))) as [Ho Hw].
  { destruct Hsame as [prog command rest1 rest2 Hcommand | prog name rest1 rest2].
    - now apply main_ignores_rest.
    - apply main_ignores_rest_after_name. }
  destruct (run_observed argv1 env marker) as (-> & -> & -> & ->).
  destruct (run_observed argv2 env marker) as (-> & -> & -> & ->).
  rewrite Ho, Hw. repeat split; reflexivity.
Qed.

(** ** Lines of the written texts *)

Lemma newline_free_app (s t : string) :
  newline_free (s +:+ t) = newline_free s && newline_free t.
Proof.
  induction s as [|c s IH]; [reflexivity|].
  rewrite append_cons. simpl. rewrite IH. now rewrite andb_assoc.
Qed.

Lemma newline_free_one_line (t : string) :
  newline_free t = true -> t <> "" -> line_count t = 1.
Proof.
  induction t as [|c t IH]; [congruence|].
  simpl. intros [Hc Ht]%andb_true_iff _.
  apply negb_true_iff in Hc. rewrite Hc.
  destruct t as [|c' t']; [reflexivity|]. now apply IH.
Qed.

Lemma newline_free_not_terminated (t : string) :
  newline_free t = true -> ends_with_newline t = false.
Proof.
  induction t as [|c t IH]; [reflexivity|].
  simpl. intros [Hc Ht]%andb_true_iff. apply negb_true_iff in Hc.
  destruct t as [|c' t']; [assumption | now apply IH].
Qed.

Lemma terminated_one_line (t : string) :
  newline_free t = true -> line_count (t +:+ newline) = 1.
Proof.
  induction t as [|c t IH]; [reflexivity|].
  simpl. intros [Hc Ht]%andb_true_iff. apply negb_true_iff in Hc.
  rewrite Hc. specialize (IH Ht).
  destruct t as [|c' t']; [reflexivity|].
  rewrite append_cons in *. exact IH.
Qed.

Lemma label_not_empty (label value : string) : label +:+ ": " +:+ value <> "".
Proof. destruct label; discriminate. Qed.

Lemma printed_one_line (label value : string) :
  newline_free label = true -> newline_free value = true ->
  line_count (label +:+ ": " +:+ value) = 1
  /\ ends_with_newline (label +:+ ": " +:+ value) = false.
Proof.
  intros Hl Hv.
  assert (newline_free (label +:+ ": " +:+ value) = true) as H.
  { rewrite !newline_free_app, Hl, Hv. reflexivity. }
  split; [apply newline_free_one_line; [assumption | apply label_not_empty]
         | now apply newline_free_not_terminated].
Qed.

(** ** The output contract *)

(** C6, as amended: on an invocation with a recognized subcommand and its
    required arguments, whose looked-up value can be formatted (for the
    marker command: the marker attribute is present and, if an integer,
    within the digit limit) and whose text [sys.stdout.write] accepts (the
    codec of standard output can encode it), the program makes exactly one
    write, to standard output, of the
    text [<label>: <value>] with nothing appended; the value is [-] when the
    looked-up value is missing or falsy (for an environment variable: the
    empty string) and the looked-up value itself otherwise; the output is
    one line without a trailing line feed whenever the label and the value
    contain no line feed. *)
Theorem output_contract argv env marker :
  well_formed argv = true ->
  (reads_marker argv = true -> marker <> None) ->
  format_fails (looked_up argv env marker) = false ->
  stdout_refuses cfg
    (label_of argv +:+ ": " +:+ shown (looked_up argv env marker)) = None ->
  let p := run argv env marker in
  let value := shown (looked_up argv env marker) in
  written (final p) = [(Stdout, label_of argv +:+ ": " +:+ value)]
  /\ stdout p = label_of argv +:+ ": " +:+ value
  /\ (looked_up argv env marker = None
      \/ looked_up argv env marker = Some (PyStr "") -> value = "-")
  /\ (forall v, looked_up argv env marker = Some v ->
        value = if truthy v then py_format v else "-")
  /\ (newline_free (label_of argv) = true -> newline_free value = true ->
        line_count (stdout p) = 1 /\ ends_with_newline (stdout p) = false).
Proof.
  intros Hwf Hmarker Hformat Haccepts.
  destruct (run_well_formed argv env marker Hwf Hmarker Hformat Haccepts)
    as (_ & _ & Hw & Ho & _).
  cbv zeta in *. rewrite Hw, Ho. repeat split.
  - intros [-> | ->]; reflexivity.
  - intros v ->. reflexivity.
  - now apply printed_one_line.
  - now apply printed_one_line.
Qed.

(** ** Read-only statements *)

Lemma logged_nil w : logged w [] = w.
Proof. destruct w. unfold logged. simpl. now rewrite app_nil_r. Qed.

Lemma logged_logged w log1 log2 :
  logged (logged w log1) log2 = logged w (log1 ++ log2).
Proof. unfold logged. simpl. now rewrite app_assoc. Qed.

Lemma read_only_ret {A} (a : A) : read_only (ret a).
Proof. intros w. exists []. simpl. now rewrite logged_nil. Qed.

Lemma read_only_raise {A} (e : exn) : read_only (@raise A e).
Proof. intros w. exists []. simpl. now rewrite logged_nil. Qed.

Lemma read_only_bind {A B} (m : py A) (k : A -> py B) :
  read_only m -> (forall a, read_only (k a)) -> read_only (bind m k).
Proof.
  intros Hm Hk w. unfold bind. destruct (Hm w) as [log1 H1].
  destruct (m w) as [[e|a] w']; simpl in H1; subst w'.
  - now exists log1.
  - destruct (Hk a (logged w log1)) as [log2 H2].
    exists (log1 ++ log2). now rewrite H2, logged_logged.
Qed.

Lemma read_only_if {A} (b : bool) (m1 m2 : py A) :
  read_only m1 -> read_only m2 -> read_only (if b then m1 else m2).
Proof. now destruct b. Qed.

Lemma read_only_os_environ_get name : read_only (os_environ_get name).
Proof.
  intros w. exists []. unfold os_environ_get.
  destruct (os_environ w !! name); simpl; now rewrite logged_nil.
Qed.

Lemma read_only_write_to s text : read_only (write_to s text).
Proof. intros w. now exists [(s, text)]. Qed.

Lemma read_only_builtins_getattr_marker : read_only builtins_getattr_marker.
Proof.
  intros w. exists []. unfold builtins_getattr_marker.
  destruct (builtins_marker w); simpl; now rewrite logged_nil.
Qed.

Lemma read_only_len_sys_argv : read_only len_sys_argv.
Proof. intros w. exists []. simpl. now rewrite logged_nil. Qed.

Lemma read_only_sys_argv_at i : read_only (sys_argv_at i).
Proof.
  intros w. exists []. unfold sys_argv_at.
  destruct (sys_argv w !! i); simpl; now rewrite logged_nil.
Qed.

Lemma read_only_sys_stdout_write text : read_only (sys_stdout_write text).
Proof.
  unfold sys_stdout_write.
  destruct (stdout_refuses cfg text);
    [apply read_only_raise | apply read_only_write_to].
Qed.

Lemma read_only_sys_stderr_write text : read_only (sys_stderr_write text).
Proof. apply read_only_write_to. Qed.

Lemma read_only_sys_exit {A} code : read_only (@sys_exit A code).
Proof. apply read_only_raise. Qed.

Lemma read_only_format_value v : read_only (format_value v).
Proof.
  unfold format_value.
  apply read_only_if; [apply read_only_raise | apply read_only_ret].
Qed.

#[local] Hint Resolve read_only_ret read_only_raise
  read_only_os_environ_get read_only_sys_stdout_write
  read_only_sys_stderr_write read_only_sys_exit read_only_format_value
  read_only_builtins_getattr_marker read_only_len_sys_argv
  read_only_sys_argv_at : read_only.

(** Statements built from read-only ones by sequencing and branching. *)
Ltac read_only :=
  repeat first
    [ solve [auto with read_only]
    | apply read_only_if
    | apply read_only_bind; [|intros ?] ].

Lemma read_only_echo_env_var name : read_only (echo_env_var name).
Proof. unfold echo_env_var. read_only. Qed.

Lemma read_only_echo_builtin_property : read_only echo_builtin_property.
Proof. unfold echo_builtin_property. read_only. Qed.

#[local] Hint Resolve read_only_echo_env_var
  read_only_echo_builtin_property : read_only.

Lemma read_only_main : read_only main.
Proof. unfold main. read_only. Qed.

Lemma final_run argv env marker :
  final (run argv env marker) = snd (main (initial argv env marker)).
Proof. unfold run. now destruct (main (initial argv env marker)). Qed.

(** The process leaves arguments, environment and marker as they were. *)
Lemma run_frame argv env marker :
  sys_argv (final (run argv env marker)) = argv
  /\ os_environ (final (run argv env marker)) = env
  /\ builtins_marker (final (run argv env marker)) = marker.
Proof.
  rewrite final_run.
  destruct (read_only_main (initial argv env marker)) as [log ->].
  repeat split; reflexivity.
Qed.

(** ** Effects of a run *)

Lemma written_run argv env marker :
  stdout (run argv env marker)
  = text_on Stdout (written (final (run argv env marker)))
  /\ stderr (run argv env marker)
     = text_on Stderr (written (final (run argv env marker))).
Proof.
  unfold run. destruct (main (initial argv env marker)). split; reflexivity.
Qed.

(** Every run ends in one of three ways: it prints, it is rejected, or it
    raises before any write. *)
Lemma run_cases argv env marker :
  let p := run argv env marker in
  let t := label_of argv +:+ ": " +:+ shown (looked_up argv env marker) in
  (exit_status p = 0%Z /\ uncaught p = None
   /\ written (final p) = [(Stdout, t)] /\ stdout p = t /\ stderr p = "")
  \/ (exit_status p = 1%Z /\ uncaught p = None
      /\ written (final p) = [(Stderr, error_text argv)]
      /\ stdout p = "" /\ stderr p = error_text argv)
  \/ (exit_status p = 1%Z /\ (exists e, uncaught p = Some e)
      /\ written (final p) = [] /\ stdout p = "" /\ stderr p = "").
Proof.
  cbv zeta. destruct (written_run argv env marker) as [-> ->].
  pose proof (run_summary argv env marker) as H. cbv zeta in H.
  repeat match type of H with
         | context [if ?b then _ else _] => destruct b
         | context [match ?o with None => _ | Some _ => _ end] => destruct o
         end;
    injection H as -> -> ->; simpl; rewrite ?string_app_empty_r; eauto 10.
Qed.

Lemma error_text_one_line argv :
  (forall command, argv !! 1 = Some command -> newline_free command = true) ->
  line_count (error_text argv) = 1.
Proof.
  destruct argv as [|prog [|command rest]]; try reflexivity.
  intros H. unfold error_text.
  destruct (String.eqb command "custom-env-var"); [reflexivity|].
  change (unknown_command_error command)
    with (("unknown test app command: " +:+ command) +:+ newline).
  apply terminated_one_line. rewrite newline_free_app. simpl.
  now apply H.
Qed.

(** C8, as amended: the run leaves the argument list, the environment and
    the marker as they were; besides reading them the program makes at most
    one write, on standard output when it returns normally and, with an
    error message, on standard error when it exits through [sys.exit(1)],
    and none when it raises; the text written is a single line whenever the
    label and the value it prints, or the command it rejects, contain no
    line feed. *)
Theorem run_only_reads_and_writes_once argv env marker :
  let p := run argv env marker in
  os_environ (final p) = env
  /\ builtins_marker (final p) = marker
  /\ sys_argv (final p) = argv
  /\ length (written (final p)) <= 1
  /\ (exit_status p = 0%Z ->
        stderr p = "" /\ exists text, written (final p) = [(Stdout, text)])
  /\ (exit_status p = 1%Z -> uncaught p = None ->
        stdout p = "" /\ exists text, written (final p) = [(Stderr, text)])
  /\ (uncaught p <> None -> written (final p) = [])
  /\ (exit_status p = 0%Z ->
      newline_free (label_of argv) = true ->
      newline_free (shown (looked_up argv env marker)) = true ->
      line_count (stdout p) = 1)
  /\ (exit_status p = 1%Z -> uncaught p = None ->
      (forall command, argv !! 1 = Some command ->
         newline_free command = true) ->
      line_count (stderr p) = 1).
Proof.
  cbv zeta. destruct (run_frame argv env marker) as (Hargv & Henv & Hmarker).
  repeat split; try assumption;
    destruct (run_cases argv env marker)
      as [(Hs & Hu & Hw & Ho & He)
         | [(Hs & Hu & Hw & Ho & He) | (Hs & [e Hu] & Hw & Ho & He)]];
    rewrite ?Hw, ?Hs, ?Hu, ?Ho, ?He; simpl;
    try lia; try congruence; eauto.
  - intros _ Hlabel Hvalue. now apply printed_one_line.
  - intros _ _ Hcommand. now apply error_text_one_line.
Qed.

(** * Further properties of the program *)

(** ** What a run depends on *)

(** Two runs with the same status, exception and writes are recorded
    alike. *)
Lemma observation_eq p q :
  stdout p = text_on Stdout (written (final p)) ->
  stderr p = text_on Stderr (written (final p)) ->
  stdout q = text_on Stdout (written (final q)) ->
  stderr q = text_on Stderr (written (final q)) ->
  exit_status p = exit_status q ->
  uncaught p = uncaught q ->
  written (final p) = written (final q) ->
  observation p = observation q.
Proof.
  intros Hop Hep Hoq Heq Hs Hu Hw. unfold observation.
  now rewrite Hop, Hep, Hoq, Heq, Hs, Hu, Hw.
Qed.

Lemma summary_observation argv1 env1 marker1 argv2 env2 marker2 :
  (exit_status (run argv1 env1 marker1), uncaught (run argv1 env1 marker1),
   written (final (run argv1 env1 marker1)))
  = (exit_status (run argv2 env2 marker2), uncaught (run argv2 env2 marker2),
     written (final (run argv2 env2 marker2))) ->
  observation (run argv1 env1 marker1) = observation (run argv2 env2 marker2).
Proof.
  intros [= Hs Hu Hw].
  destruct (written_run argv1 env1 marker1), (written_run argv2 env2 marker2).
  now apply observation_eq.
Qed.

(** X1: the program name [sys.argv[0]] is never read: two invocations that
    differ only in it are observed alike. *)
Theorem program_name_is_ignored prog1 prog2 args env marker :
  observation (run (prog1 :: args) env marker)
  = observation (run (prog2 :: args) env marker).
Proof.
  apply summary_observation.
  pose proof (run_summary (prog1 :: args) env marker) as H1.
  pose proof (run_summary (prog2 :: args) env marker) as H2.
  cbv zeta in H1, H2. rewrite H1, H2. destruct args; reflexivity.
Qed.

(** X2: run by the same interpreter (standard output accepting the same
    texts, the same digit limit), a program depends on the environment only
    through the
    variable it looks up: two environments that agree on that variable
    give the same observation, for every argument list and marker. *)
Theorem only_the_named_variable_is_read argv env1 env2 marker :
  env1 !! label_of argv = env2 !! label_of argv ->
  observation (run argv env1 marker) = observation (run argv env2 marker).
Proof.
  intros Hagree. apply summary_observation.
  pose proof (run_summary argv env1 marker) as H1.
  pose proof (run_summary argv env2 marker) as H2.
  cbv zeta in H1, H2. rewrite H1, H2.
  unfold looked_up. now rewrite Hagree.
Qed.

(** X3: only the marker command reads the marker: for every other argument
    list the observation is the same whatever the marker is, absent or
    present. *)
Theorem marker_matters_to_verify_only argv env marker1 marker2 :
  reads_marker argv = false ->
  observation (run argv env marker1) = observation (run argv env marker2).
Proof.
  intros Hreads. apply summary_observation.
  pose proof (run_summary argv env marker1) as H1.
  pose proof (run_summary argv env marker2) as H2.
  cbv zeta in H1, H2. rewrite H1, H2.
  unfold looked_up. now rewrite Hreads.
Qed.

(** X4: run by the same interpreter, the marker command and the error
    exits do not read the environment at all. *)
Theorem environment_matters_to_echo_only argv env1 env2 marker :
  reads_marker argv = true \/ well_formed argv = false ->
  observation (run argv env1 marker) = observation (run argv env2 marker).
Proof.
  intros Hcase. apply summary_observation.
  pose proof (run_summary argv env1 marker) as H1.
  pose proof (run_summary argv env2 marker) as H2.
  cbv zeta in H1, H2. rewrite H1, H2.
  destruct Hcase as [Hreads | Hwf].
  - unfold looked_up. now rewrite Hreads.
  - now rewrite Hwf.
Qed.

(** X5: a variable set to the empty string cannot be told from an unset
    one, whatever the command: setting it to the empty string and deleting
    it give the same observation. *)
Theorem empty_is_like_unset argv (env : gmap string string) name marker :
  observation (run argv (<[ name := "" ]> env) marker)
  = observation (run argv (delete name env) marker).
Proof.
  apply summary_observation.
  pose proof (run_summary argv (<[ name := "" ]> env) marker) as H1.
  pose proof (run_summary argv (delete name env) marker) as H2.
  cbv zeta in H1, H2. rewrite H1, H2.
  unfold looked_up.
  destruct (decide (name = label_of argv)) as [->|Hne].
  - rewrite lookup_insert_eq, lookup_delete_eq.
    destruct (well_formed argv), (reads_marker argv); reflexivity.
  - rewrite lookup_insert_ne, lookup_delete_ne by done. reflexivity.
Qed.

(** ** Ways to fail *)

Lemma reads_marker_well_formed argv :
  reads_marker argv = true -> well_formed argv = true.
Proof.
  destruct argv as [|prog [|command rest]]; try discriminate.
  simpl. intros ->%String.eqb_eq. reflexivity.
Qed.



Lemma error_text_not_empty argv : error_text argv <> "".
Proof.
  destruct argv as [|prog [|command rest]]; try discriminate.
  unfold error_text. destruct (String.eqb command "custom-env-var");
    discriminate.
Qed.


(** ** What the output tells *)










(** X11: commands are matched exactly: a recognized command followed by
    any further characters is rejected as unknown. *)
Theorem longer_command_is_unknown prog command suffix rest env marker :
  command ∈ subcommands ->
  suffix <> "" ->
  let p := run (prog :: (command +:+ suffix) :: rest) env marker in
  stderr p = unknown_command_error (command +:+ suffix)
  /\ exit_status p = 1%Z
  /\ stdout p = "".
Proof.
  intros Hcommand Hsuffix.
  assert (command +:+ suffix ∉ subcommands) as Hunknown.
  { unfold subcommands in *.
    assert (forall c, c +:+ suffix <> c) as Hlonger.
    { intros c H. apply Hsuffix, (inj (String.app c)).
      now rewrite string_app_empty_r. }
    rewrite !elem_of_cons in Hcommand. rewrite !not_elem_of_cons.
    destruct Hcommand as [->|[->|[->|[->|[]%elem_of_nil]]]];
      repeat split; try apply not_elem_of_nil; try apply Hlonger;
      discriminate. }
  pose proof (main_unknown prog _ rest env marker Hunknown) as H.
  simpl in H. single_write H.
  rewrite Hout, Herr, Htext, Hstatus, (Hother Stdout) by discriminate.
  repeat split; done.
Qed.

(** ** Earlier output and sequencing *)

Lemma history_independent_ret {A} (a : A) : history_independent (ret a).
Proof. intros history w. reflexivity. Qed.

Lemma history_independent_raise {A} (e : exn) :
  history_independent (@raise A e).
Proof. intros history w. reflexivity. Qed.

Lemma history_independent_bind {A B} (m : py A) (k : A -> py B) :
  history_independent m -> (forall a, history_independent (k a)) ->
  history_independent (bind m k).
Proof.
  intros Hm Hk history w. unfold bind. rewrite Hm.
  destruct (m w) as [[e|a] w']; simpl; [reflexivity | apply Hk].
Qed.

Lemma history_independent_if {A} (b : bool) (m1 m2 : py A) :
  history_independent m1 -> history_independent m2 ->
  history_independent (if b then m1 else m2).
Proof. now destruct b. Qed.

Lemma history_independent_os_environ_get name :
  history_independent (os_environ_get name).
Proof.
  intros history w. unfold os_environ_get. simpl.
  destruct (os_environ w !! name); reflexivity.
Qed.

Lemma history_independent_write_to s text :
  history_independent (write_to s text).
Proof.
  intros history w. unfold write_to, with_history. simpl.
  now rewrite app_assoc.
Qed.

Lemma history_independent_sys_stdout_write text :
  history_independent (sys_stdout_write text).
Proof.
  unfold sys_stdout_write. destruct (stdout_refuses cfg text);
    [apply history_independent_raise | apply history_independent_write_to].
Qed.

Lemma history_independent_sys_stderr_write text :
  history_independent (sys_stderr_write text).
Proof. apply history_independent_write_to. Qed.

Lemma history_independent_sys_exit {A} code :
  history_independent (@sys_exit A code).
Proof. apply history_independent_raise. Qed.

Lemma history_independent_format_value v :
  history_independent (format_value v).
Proof.
  unfold format_value. apply history_independent_if;
    [apply history_independent_raise | apply history_independent_ret].
Qed.

Lemma history_independent_builtins_getattr_marker :
  history_independent builtins_getattr_marker.
Proof.
  intros history w. unfold builtins_getattr_marker. simpl.
  destruct (builtins_marker w); reflexivity.
Qed.

Lemma history_independent_len_sys_argv : history_independent len_sys_argv.
Proof. intros history w. reflexivity. Qed.

Lemma history_independent_sys_argv_at i :
  history_independent (sys_argv_at i).
Proof.
  intros history w. unfold sys_argv_at. simpl.
  destruct (sys_argv w !! i); reflexivity.
Qed.

#[local] Hint Resolve history_independent_ret history_independent_raise
  history_independent_os_environ_get history_independent_sys_stdout_write
  history_independent_sys_stderr_write history_independent_sys_exit
  history_independent_format_value
  history_independent_builtins_getattr_marker
  history_independent_len_sys_argv history_independent_sys_argv_at : history.

Ltac history_independent :=
  repeat first
    [ solve [auto with history]
    | apply history_independent_if
    | apply history_independent_bind; [|intros ?] ].

Lemma history_independent_echo_env_var name :
  history_independent (echo_env_var name).
Proof. unfold echo_env_var. history_independent. Qed.

Lemma history_independent_echo_builtin_property :
  history_independent echo_builtin_property.
Proof. unfold echo_builtin_property. history_independent. Qed.

#[local] Hint Resolve history_independent_echo_env_var
  history_independent_echo_builtin_property : history.

Lemma history_independent_main : history_independent main.
Proof. unfold main. history_independent. Qed.

Lemma world_with_history w :
  w = with_history (written w)
        (initial (sys_argv w) (os_environ w) (builtins_marker w)).
Proof. destruct w. unfold with_history. simpl. now rewrite app_nil_r. Qed.

(** X12: [main] behaves in any world as it does at start-up: whatever was
    written before stays in front of the log, untouched, and what [main]
    returns and writes is what a fresh process with the same arguments,
    environment and marker returns and writes. *)
Theorem main_in_any_world w :
  let p := run (sys_argv w) (os_environ w) (builtins_marker w) in
  status_of (fst (main w)) = exit_status p
  /\ uncaught_of (fst (main w)) = uncaught p
  /\ snd (main w) = logged w (written (final p)).
Proof.
  cbv zeta. rewrite final_run.
  destruct (run_observed (sys_argv w) (os_environ w) (builtins_marker w))
    as (-> & -> & _).
  pose proof (history_independent_main (written w)
                (initial (sys_argv w) (os_environ w) (builtins_marker w)))
    as H.
  rewrite <- world_with_history in H. rewrite H. simpl fst. simpl snd.
  repeat split.
  destruct (read_only_main
              (initial (sys_argv w) (os_environ w) (builtins_marker w)))
    as [log ->].
  reflexivity.
Qed.

Lemma text_on_app s log1 log2 :
  text_on s (log1 ++ log2) = text_on s log1 +:+ text_on s log2.
Proof.
  induction log1 as [|[s' t] log1 IH]; [reflexivity|].
  simpl. destruct (same_stream s s'); [|assumption].
  rewrite IH. clear IH.
  induction t as [|c t IHt]; [reflexivity | now rewrite !append_cons, IHt].
Qed.

(** X13: two calls of [echo_env_var] in sequence.  When standard output
    accepts both texts, both are written and, as no line feed is written,
    the second follows the first directly; when it refuses the first, the
    call raises, the second does not run and nothing is written; when it
    refuses the second only, the first text stays written. *)
Theorem echoes_in_sequence name1 name2 w :
  let text1 := name1 +:+ ": " +:+ shown (PyStr <$> os_environ w !! name1) in
  let text2 := name2 +:+ ": " +:+ shown (PyStr <$> os_environ w !! name2) in
  let r := (echo_env_var name1 ;;; echo_env_var name2) w in
  (stdout_refuses cfg text1 = None -> stdout_refuses cfg text2 = None ->
     r = (inr tt, logged w [(Stdout, text1); (Stdout, text2)])
     /\ text_on Stdout (written (snd r))
        = text_on Stdout (written w) +:+ text1 +:+ text2)
  /\ (forall f, stdout_refuses cfg text1 = Some f ->
        r = (inl (write_exn f text1), w))
  /\ (forall f, stdout_refuses cfg text1 = None ->
        stdout_refuses cfg text2 = Some f ->
        r = (inl (write_exn f text2), logged w [(Stdout, text1)])).
Proof.
  cbv zeta. unfold bind. rewrite echo_env_var_run. repeat apply conj.
  - intros H1 H2. rewrite sys_stdout_write_accepted by exact H1.
    rewrite echo_env_var_run. simpl os_environ.
    rewrite sys_stdout_write_accepted by exact H2.
    rewrite logged_logged. split; [reflexivity|].
    simpl snd. simpl written. rewrite text_on_app. simpl.
    now rewrite string_app_empty_r.
  - intros f H1. now rewrite (sys_stdout_write_refused _ f) by exact H1.
  - intros f H1 H2. rewrite sys_stdout_write_accepted by exact H1.
    rewrite echo_env_var_run. simpl os_environ.
    now rewrite (sys_stdout_write_refused _ f) by exact H2.
Qed.

(** ** Exit status, as the code gives it *)

(** X14: the status is 0 only when the invocation has a recognized
    subcommand with its required arguments, the looked-up value can be
    formatted (for the marker command: the marker attribute exists and, if
    an integer, is within the digit limit) and standard output accepts the
    text to print; when one of these fails, the status is 1. *)
Theorem exit_status_by_cases argv env marker :
  let p := run argv env marker in
  let t := label_of argv +:+ ": " +:+ shown (looked_up argv env marker) in
  (exit_status p = 0%Z ->
     well_formed argv = true
     /\ (reads_marker argv = true -> marker <> None)
     /\ format_fails (looked_up argv env marker) = false
     /\ stdout_refuses cfg t = None)
  /\ (well_formed argv = false -> exit_status p = 1%Z)
  /\ (reads_marker argv = true -> marker = None -> exit_status p = 1%Z)
  /\ (well_formed argv = true ->
      format_fails (looked_up argv env marker) = true -> exit_status p = 1%Z)
  /\ (well_formed argv = true ->
      stdout_refuses cfg t <> None -> exit_status p = 1%Z).
Proof.
  cbv zeta. pose proof (run_summary argv env marker) as H. cbv zeta in H.
  refine (conj _ (conj _ (conj _ (conj _ _)))).
  - intros Hstatus. rewrite Hstatus in H.
    destruct (well_formed argv); [|discriminate].
    destruct (reads_marker argv && bool_decide (marker = None)) eqn:Habsent;
      [discriminate|].
    destruct (format_fails (looked_up argv env marker)); [discriminate|].
    destruct (stdout_refuses cfg _); [discriminate|].
    repeat split.
    intros Hreads ->. rewrite Hreads in Habsent. discriminate.
  - intros Hwf. rewrite Hwf in H. now injection H as -> _ _.
  - intros Hreads ->.
    rewrite (reads_marker_well_formed _ Hreads), Hreads in H.
    simpl in H. now injection H as -> _ _.
  - intros Hwf Hfails. rewrite Hwf, Hfails in H.
    destruct (reads_marker argv && bool_decide (marker = None));
      now injection H as -> _ _.
  - intros Hwf Hrefuses. rewrite Hwf in H.
    destruct (reads_marker argv && bool_decide (marker = None));
      [now injection H as -> _ _|].
    destruct (format_fails (looked_up argv env marker));
      [now injection H as -> _ _|].
    destruct (stdout_refuses cfg _); [now injection H as -> _ _ | congruence].
Qed.
End Interpreter.

(** * The program run by a sample interpreter *)

(** ** Scenarios of the specification *)

Example scenario_pythonpath_set :
  let p := run ascii_interpreter ["app.py"; "pythonpath"]
             {[ "PYTHONPATH" := "/opt/otel" ]} None in
  stdout p = "PYTHONPATH: /opt/otel" /\ exit_status p = 0%Z /\ stderr p = "".
Proof. vm_compute. auto. Qed.

Example scenario_pythonpath_unset :
  let p := run ascii_interpreter ["app.py"; "pythonpath"] ∅ None in
  stdout p = "PYTHONPATH: -" /\ exit_status p = 0%Z.
Proof. vm_compute. auto. Qed.

Example scenario_custom :
  let p := run ascii_interpreter ["app.py"; "custom-env-var"; "MY_VAR"]
             {[ "MY_VAR" := "hello" ]} None in
  stdout p = "MY_VAR: hello" /\ exit_status p = 0%Z.
Proof. vm_compute. auto. Qed.

Example scenario_bogus :
  let p := run ascii_interpreter ["app.py"; "bogus-command"] ∅ None in
  stderr p = "unknown test app command: bogus-command" +:+ newline
  /\ exit_status p = 1%Z /\ stdout p = "".
Proof. vm_compute. auto. Qed.

Example scenario_marker_int :
  stdout (run ascii_interpreter ["app.py"; verify_command] ∅
              (Some (PyInt (-42))))
  = "otel_injector_python_no_op_agent_has_been_loaded: -42".
Proof. vm_compute. reflexivity. Qed.

(** An integer marker with more digits than the limit, here 641 digits
    under a limit of 640: the formatting raises and nothing is printed. *)
Example long_integer_marker_is_not_formatted :
  let p := run short_integers_interpreter ["app.py"; verify_command] ∅
             (Some (PyInt (10 ^ 640))) in
  uncaught p = Some ValueError /\ stdout p = "" /\ exit_status p = 1%Z.
Proof. vm_compute. auto. Qed.

(** ** Echo commands *)

(** With an ASCII standard output, a value with an accented letter cannot
    be written: the echo raises instead of printing the value. *)
Lemma echo_as_stated_fails :
  ~ echo_as_stated ascii_interpreter
      ["app.py"; "custom-env-var"; "X"] "X"
      (<[ "X" := "h" +:+ e_acute ]> {[ "PYTHONIOENCODING" := "ascii" ]})
      None.
Proof.
  intros [_ Hset].
  specialize (Hset ("h" +:+ e_acute) eq_refl ltac:(discriminate)).
  vm_compute in Hset. discriminate.
Qed.

Lemma echo_command_writes_accepted_text_witness :
  stdout (run ascii_interpreter ["app.py"; "custom-env-var"; "MY_VAR"]
              {[ "MY_VAR" := "hello" ]} None)
  = "MY_VAR: hello"
  /\ stdout (run ascii_interpreter ["app.py"; "pythonpath"] ∅ None)
     = "PYTHONPATH: -".
Proof.
  split.
  - destruct (echo_command_writes_accepted_text ascii_interpreter
                ["app.py"; "custom-env-var"; "MY_VAR"] "MY_VAR"
                {[ "MY_VAR" := "hello" ]} None (echoes_custom _ _ _))
      as (_ & Hset & _).
    apply (Hset "hello"); [reflexivity | discriminate | reflexivity].
  - destruct (echo_command_writes_accepted_text ascii_interpreter
                ["app.py"; "pythonpath"] "PYTHONPATH" ∅ None
                (echoes_pythonpath _ _))
      as (Hunset & _).
    apply Hunset; [left; reflexivity | reflexivity].
Defined.

(** ** Error exits *)

Lemma unknown_command_is_rejected_witness :
  let p := run ascii_interpreter ["app.py"; "bogus-command"] ∅ None in
  contains (stderr p) "unknown test app command: bogus-command"
  /\ exit_status p = 1%Z /\ stdout p = "".
Proof.
  assert ("bogus-command" ∉ subcommands) as H.
  { unfold subcommands. rewrite !not_elem_of_cons. repeat split; try discriminate.
    apply not_elem_of_nil. }
  destruct (unknown_command_is_rejected ascii_interpreter
              "app.py" "bogus-command" [] ∅ None H)
    as (_ & Hc & Hs & _ & Ho & _).
  exact (conj Hc (conj Hs Ho)).
Defined.

Lemma missing_command_is_rejected_witness :
  let p := run ascii_interpreter ["app.py"]
             {[ "PYTHONPATH" := "/opt/otel" ]} None in
  stderr p
  = "error: not enough arguments, the command for the app under test needs to be specifed"
    +:+ String (Ascii.ascii_of_nat 10) ""
  /\ exit_status p = 1%Z /\ stdout p = "".
Proof.
  assert (length ["app.py"] < 2) as H by (simpl; lia).
  destruct (missing_command_is_rejected ascii_interpreter ["app.py"]
              {[ "PYTHONPATH" := "/opt/otel" ]} None H)
    as (He & _ & Hs & _ & Ho & _).
  exact (conj He (conj Hs Ho)).
Defined.

(** ** Trailing arguments *)

Lemma trailing_arguments_are_ignored_witness :
  stdout (run ascii_interpreter ["app.py"; "pythonpath"; "extra"; "more"]
              {[ "PYTHONPATH" := "/opt/otel" ]} None)
  = stdout (run ascii_interpreter ["app.py"; "pythonpath"]
                {[ "PYTHONPATH" := "/opt/otel" ]} None)
  /\ exit_status (run ascii_interpreter
                      ["app.py"; "custom-env-var"; "MY_VAR"; "extra"] ∅ None)
     = exit_status (run ascii_interpreter
                        ["app.py"; "custom-env-var"; "MY_VAR"] ∅ None).
Proof.
  split.
  - apply (trailing_arguments_are_ignored ascii_interpreter
             ["app.py"; "pythonpath"; "extra"; "more"] ["app.py"; "pythonpath"]).
    apply trailing_after_command. discriminate.
  - apply (trailing_arguments_are_ignored ascii_interpreter
             ["app.py"; "custom-env-var"; "MY_VAR"; "extra"]
             ["app.py"; "custom-env-var"; "MY_VAR"]).
    apply trailing_after_name.
Defined.

(** ** The output contract *)

Lemma output_contract_witness :
  let p := run ascii_interpreter ["app.py"; "custom-env-var"; "MY_VAR"]
             {[ "MY_VAR" := "hello" ]} None in
  stdout p = "MY_VAR: hello"
  /\ line_count (stdout p) = 1 /\ ends_with_newline (stdout p) = false.
Proof.
  destruct (output_contract ascii_interpreter
              ["app.py"; "custom-env-var"; "MY_VAR"]
              {[ "MY_VAR" := "hello" ]} None)
    as (_ & Ho & _ & _ & Hline);
    [reflexivity | discriminate | reflexivity | reflexivity |].
  split; [exact Ho | apply Hline; reflexivity].
Defined.

(** The contract as worded fails on a value that ends with a line feed:
    the value is echoed as it is, so the output ends with that line feed. *)
Lemma output_contract_as_stated_fails :
  ~ output_contract_as_stated ascii_interpreter ["app.py"; "pythonpath"]
      {[ "PYTHONPATH" := "/opt/otel" +:+ newline ]} None.
Proof.
  intros H. destruct H as (value & _ & _ & Hend & _); [reflexivity|].
  vm_compute in Hend. discriminate.
Qed.

(** It also fails on a value that is itself a dash, which is neither missing
    nor empty. *)
Example dash_value_is_echoed :
  let env : gmap string string := {[ "PYTHONPATH" := "-" ]} in
  stdout (run ascii_interpreter ["app.py"; "pythonpath"] env None)
  = "PYTHONPATH: -"
  /\ looked_up ["app.py"; "pythonpath"] env None = Some (PyStr "-").
Proof. vm_compute. auto. Qed.

(** And on a marker that is present but falsy, such as [False]. *)
Example false_marker_prints_dash :
  stdout (run ascii_interpreter ["app.py"; verify_command] ∅
              (Some (PyBool false)))
  = marker_name +:+ ": -".
Proof. vm_compute. reflexivity. Qed.

(** ** Effects of a run *)

Lemma run_only_reads_and_writes_once_witness :
  let env : gmap string string := {[ "PYTHONPATH" := "/opt/otel" ]} in
  let p := run ascii_interpreter ["app.py"; "pythonpath"] env None in
  os_environ (final p) = env
  /\ written (final p) = [(Stdout, "PYTHONPATH: /opt/otel")]
  /\ line_count (stdout p) = 1.
Proof.
  intros env p.
  destruct (run_only_reads_and_writes_once ascii_interpreter
              ["app.py"; "pythonpath"] env None)
    as (Henv & _ & _ & _ & _ & _ & _ & Hline & _).
  split; [exact Henv|]. split; [reflexivity|].
  apply Hline; reflexivity.
Defined.

(** The effects as worded fail on a value that spans two lines: it is echoed
    as it is, so two lines reach standard output. *)
Lemma effects_as_stated_fails :
  ~ effects_as_stated ascii_interpreter ["app.py"; "custom-env-var"; "MY_VAR"]
      {[ "MY_VAR" := "first" +:+ newline +:+ "second" ]} None.
Proof.
  intros (_ & _ & _ & Hsuccess & _).
  destruct Hsuccess as [Hlines _]; [reflexivity|].
  vm_compute in Hlines. lia.
Qed.

(** ** Further properties *)

Lemma only_the_named_variable_is_read_witness :
  observation (run ascii_interpreter ["app.py"; "pythonpath"]
                   {[ "PYTHONPATH" := "/opt/otel" ]} None)
  = observation (run ascii_interpreter ["app.py"; "pythonpath"]
                     (<[ "HOME" := "/root" ]> {[ "PYTHONPATH" := "/opt/otel" ]})
                     None).
Proof.
  apply (only_the_named_variable_is_read ascii_interpreter
           ["app.py"; "pythonpath"]).
  reflexivity.
Defined.

Lemma marker_matters_to_verify_only_witness :
  observation (run ascii_interpreter ["app.py"; "pythonpath"] ∅ None)
  = observation (run ascii_interpreter ["app.py"; "pythonpath"] ∅
                     (Some (PyBool true))).
Proof.
  apply (marker_matters_to_verify_only ascii_interpreter
           ["app.py"; "pythonpath"]).
  reflexivity.
Defined.

Lemma environment_matters_to_echo_only_witness :
  observation (run ascii_interpreter ["app.py"; verify_command] ∅
                   (Some (PyBool true)))
  = observation (run ascii_interpreter ["app.py"; verify_command]
                     {[ "PYTHONPATH" := "/opt/otel" ]} (Some (PyBool true))).
Proof.
  apply (environment_matters_to_echo_only ascii_interpreter
           ["app.py"; verify_command]).
  left. reflexivity.
Defined.



Lemma longer_command_is_unknown_witness :
  let p := run ascii_interpreter ["app.py"; "pythonpath" +:+ "s"] ∅ None in
  stderr p = unknown_command_error "pythonpaths"
  /\ exit_status p = 1%Z /\ stdout p = "".
Proof.
  apply (longer_command_is_unknown ascii_interpreter
           "app.py" "pythonpath" "s" [] ∅ None).
  - apply list_elem_of_here.
  - discriminate.
Defined.

Lemma echoes_in_sequence_witness :
  let w := initial [] {[ "A" := "1" ]} None in
  (echo_env_var ascii_interpreter "A" ;;; echo_env_var ascii_interpreter "B") w
  = (inr tt, logged w [(Stdout, "A: 1"); (Stdout, "B: -")]).
Proof.
  intros w.
  destruct (echoes_in_sequence ascii_interpreter "A" "B" w) as (Hboth & _).
  apply Hboth; reflexivity.
Defined.
